(** * Cloud Composer triggers

    A shallow embedding of
    [airflow/providers/google/cloud/triggers/cloud_composer.py]: the two
    deferrable triggers [CloudComposerExecutionTrigger] and
    [CloudComposerAirflowCLICommandTrigger].

    [run] is an asynchronous generator that talks to a remote hook, sleeps and
    yields events, and whose polling loop is a [while True].  It is embedded as
    an interaction tree over the effects the coroutine performs; a remote
    client fixed by the caller ("mock") gives those effects a meaning, and
    [exec] runs a tree against it for a bounded number of steps. *)

From Stdlib Require Import String ZArith List Lia Bool.
From ITree Require Import ITree.
Import ListNotations.
Import ITreeNotations.
Local Open Scope string_scope.
Local Open Scope list_scope.
Local Open Scope itree_scope.

(* ===================================================================== *)
(** ** Python values *)
(* ===================================================================== *)

(** The values that travel through [serialize], the hook and the event
    payloads: [None], booleans, integers, strings, lists and string-keyed
    dictionaries (kept in insertion order, as Python keeps them). *)
#[local] Set Warnings "-register-all".
Inductive pyval : Type :=
| PNone
| PBool (b : bool)
| PInt (z : Z)
| PStr (s : string)
| PList (l : list pyval)
| PDict (d : list (string * pyval)).

Definition dict : Type := list (string * pyval).

(** [d.get(key)]: the first binding of [key]. *)
Fixpoint lookup (key : string) (d : dict) : option pyval :=
  match d with
  | [] => None
  | (k, v) :: rest => if String.eqb key k then Some v else lookup key rest
  end.

(** Truthiness of a string: [bool(s)] is false only for the empty one. *)
Definition truthy (s : string) : bool :=
  match s with
  | EmptyString => false
  | String _ _ => true
  end.

(** [needle in hay] for strings. *)
Definition contains (hay needle : string) : Prop :=
  exists pre post, hay = (pre ++ needle ++ post)%string.

(* ===================================================================== *)
(** ** Exceptions and call outcomes *)
(* ===================================================================== *)

(** A raised exception: its class, whether it is an instance of
    [AirflowException] (what [except AirflowException] tests) and [str(ex)]. *)
Record exn : Type := {
  exn_class : string;
  exn_is_airflow : bool;
  exn_str : string
}.

(** [AirflowException(msg)]. *)
Definition AirflowException (msg : string) : exn :=
  {| exn_class := "AirflowException"; exn_is_airflow := true; exn_str := msg |}.

(** What awaiting a call gives: a value, or an exception raised at the
    [await]. *)
Inductive outcome (R : Type) : Type :=
| Returned (r : R)
| Raised (e : exn).
Arguments Returned {R} r.
Arguments Raised {R} e.

(* ===================================================================== *)
(** ** Collaborators: hook, operation, trigger event *)
(* ===================================================================== *)

(** [impersonation_chain: str | Sequence[str] | None]. *)
Definition impersonation : Type := option (string + list string).

(** [CloudComposerAsyncHook(gcp_conn_id=..., impersonation_chain=...)]: the
    hook object holds what it was built from. *)
Record CloudComposerAsyncHook : Type := {
  hook_gcp_conn_id : string;
  hook_impersonation_chain : impersonation
}.

(** The fields of the long-running operation that [run] reads:
    [operation.name], [operation.done] and [operation.error.message]. *)
Record Operation : Type := {
  name : string;
  done : bool;
  error_message : string
}.

(** [TriggerEvent(payload)]. *)
Record TriggerEvent : Type := { payload : dict }.

(* ===================================================================== *)
(** ** Effects of a running trigger *)
(* ===================================================================== *)

(** The suspension points of the coroutines: the two awaited hook calls,
    [asyncio.sleep], and [yield]. *)
Variant effect : Type -> Type :=
| get_operation (hook : CloudComposerAsyncHook) (operation_name : string)
  : effect (outcome Operation)
| wait_command_execution_result (hook : CloudComposerAsyncHook)
    (project_id region environment_id : string) (execution_cmd_info : dict)
    (poll_interval : Z)
  : effect (outcome pyval)
| sleep (seconds : Z) : effect unit
| yield (event : TriggerEvent) : effect unit.

(** A generator body: it ends normally ([Returned tt]) or by an exception
    that leaves [run] unhandled. *)
Definition coroutine : Type := itree effect (outcome unit).

(* ===================================================================== *)
(** ** Keyword arguments *)
(* ===================================================================== *)

(** Conversions between typed fields and the values of a kwargs dictionary. *)
Definition py_of_chain (c : impersonation) : pyval :=
  match c with
  | None => PNone
  | Some (inl s) => PStr s
  | Some (inr l) => PList (map PStr l)
  end.

Fixpoint strs_of_py (l : list pyval) : option (list string) :=
  match l with
  | [] => Some []
  | PStr s :: rest =>
      match strs_of_py rest with
      | Some r => Some (s :: r)
      | None => None
      end
  | _ :: _ => None
  end.

Definition chain_of_py (v : pyval) : option impersonation :=
  match v with
  | PNone => Some None
  | PStr s => Some (Some (inl s))
  | PList l =>
      match strs_of_py l with
      | Some r => Some (Some (inr r))
      | None => None
      end
  | _ => None
  end.

Definition str_of_py (v : pyval) : option string :=
  match v with PStr s => Some s | _ => None end.

Definition int_of_py (v : pyval) : option Z :=
  match v with PInt z => Some z | _ => None end.

Definition dict_of_py (v : pyval) : option dict :=
  match v with PDict d => Some d | _ => None end.

(** Binding one keyword argument when [__init__] is called with a kwargs
    dictionary.  A parameter
    without default must be present; one with a default takes it when the key
    is absent.  [None] stands for the call failing (a missing argument, or a
    value outside the annotated type, which this model does not follow). *)
Definition required {A : Type} (conv : pyval -> option A) (key : string)
    (kwargs : dict) : option A :=
  match lookup key kwargs with
  | Some v => conv v
  | None => None
  end.

Definition defaulted {A : Type} (conv : pyval -> option A) (key : string)
    (default : A) (kwargs : dict) : option A :=
  match lookup key kwargs with
  | Some v => conv v
  | None => Some default
  end.

(** No keyword outside the signature: Python raises [TypeError] on an
    unexpected keyword argument. *)
Definition known_keywords (parameters : list string) (kwargs : dict) : bool :=
  forallb (fun kv => existsb (String.eqb (fst kv)) parameters) kwargs.

(* ===================================================================== *)
(** ** CloudComposerExecutionTrigger *)
(* ===================================================================== *)

Module CloudComposerExecutionTrigger.

Record t : Type := {
  project_id : string;
  region : string;
  operation_name : string;
  gcp_conn_id : string;
  impersonation_chain : impersonation;
  pooling_period_seconds : Z
}.

(** [self.gcp_hook], built in [__init__] from the two connection fields. *)
Definition gcp_hook (self : t) : CloudComposerAsyncHook :=
  {| hook_gcp_conn_id := gcp_conn_id self;
     hook_impersonation_chain := impersonation_chain self |}.

Definition classpath : string :=
  "airflow.providers.google.cloud.triggers.cloud_composer.CloudComposerExecutionTrigger".

Definition serialize (self : t) : string * dict :=
  (classpath,
   [ ("project_id", PStr (project_id self));
     ("region", PStr (region self));
     ("operation_name", PStr (operation_name self));
     ("gcp_conn_id", PStr (gcp_conn_id self));
     ("impersonation_chain", py_of_chain (impersonation_chain self));
     ("pooling_period_seconds", PInt (pooling_period_seconds self)) ]).

Definition parameters : list string :=
  [ "project_id"; "region"; "operation_name"; "gcp_conn_id";
    "impersonation_chain"; "pooling_period_seconds" ].

(** The constructor, called with the keyword arguments [kwargs]. *)
Definition init (kwargs : dict) : option t :=
  if known_keywords parameters kwargs then
    match required str_of_py "project_id" kwargs,
          required str_of_py "region" kwargs,
          required str_of_py "operation_name" kwargs,
          defaulted str_of_py "gcp_conn_id" "google_cloud_default" kwargs,
          defaulted chain_of_py "impersonation_chain" None kwargs,
          defaulted int_of_py "pooling_period_seconds" 30%Z kwargs
    with
    | Some p, Some r, Some o, Some c, Some i, Some s =>
        Some {| project_id := p; region := r; operation_name := o;
                gcp_conn_id := c; impersonation_chain := i;
                pooling_period_seconds := s |}
    | _, _, _, _, _, _ => None
    end
  else None.

(** One turn of the [while True] loop.  [inl tt] goes round again; [inr]
    leaves the loop, by [break] with the operation in hand or by an
    exception (the hook's own, or the [AirflowException] raised here). *)
Definition poll (self : t) (_ : unit)
  : itree effect (unit + outcome Operation) :=
  awaited <- ITree.trigger (get_operation (gcp_hook self) (operation_name self));;
  match awaited with
  | Raised e => Ret (inr (Raised e))
  | Returned operation =>
      if done operation then Ret (inr (Returned operation))
      else if truthy (error_message operation) then
        Ret (inr (Raised (AirflowException
          ("Cloud Composer Environment error: " ++ error_message operation)%string)))
      else
        ITree.trigger (sleep (pooling_period_seconds self));;
        Ret (inl tt)
  end.

Definition run (self : t) : coroutine :=
  left_loop <- ITree.iter (poll self) tt;;
  match left_loop with
  | Raised e => Ret (Raised e)
  | Returned operation =>
      ITree.trigger (yield {| payload :=
        [ ("operation_name", PStr (name operation));
          ("operation_done", PBool (done operation)) ] |});;
      Ret (Returned tt)
  end.

End CloudComposerExecutionTrigger.

(* ===================================================================== *)
(** ** CloudComposerAirflowCLICommandTrigger *)
(* ===================================================================== *)

Module CloudComposerAirflowCLICommandTrigger.

Record t : Type := {
  project_id : string;
  region : string;
  environment_id : string;
  execution_cmd_info : dict;
  gcp_conn_id : string;
  impersonation_chain : impersonation;
  poll_interval : Z
}.

Definition gcp_hook (self : t) : CloudComposerAsyncHook :=
  {| hook_gcp_conn_id := gcp_conn_id self;
     hook_impersonation_chain := impersonation_chain self |}.

Definition classpath : string :=
  "airflow.providers.google.cloud.triggers.cloud_composer.CloudComposerAirflowCLICommandTrigger".

Definition serialize (self : t) : string * dict :=
  (classpath,
   [ ("project_id", PStr (project_id self));
     ("region", PStr (region self));
     ("environment_id", PStr (environment_id self));
     ("execution_cmd_info", PDict (execution_cmd_info self));
     ("gcp_conn_id", PStr (gcp_conn_id self));
     ("impersonation_chain", py_of_chain (impersonation_chain self));
     ("poll_interval", PInt (poll_interval self)) ]).

Definition parameters : list string :=
  [ "project_id"; "region"; "environment_id"; "execution_cmd_info";
    "gcp_conn_id"; "impersonation_chain"; "poll_interval" ].

(** The constructor, called with the keyword arguments [kwargs]. *)
Definition init (kwargs : dict) : option t :=
  if known_keywords parameters kwargs then
    match required str_of_py "project_id" kwargs,
          required str_of_py "region" kwargs,
          required str_of_py "environment_id" kwargs,
          required dict_of_py "execution_cmd_info" kwargs,
          defaulted str_of_py "gcp_conn_id" "google_cloud_default" kwargs,
          defaulted chain_of_py "impersonation_chain" None kwargs,
          defaulted int_of_py "poll_interval" 10%Z kwargs
    with
    | Some p, Some r, Some e, Some x, Some c, Some i, Some s =>
        Some {| project_id := p; region := r; environment_id := e;
                execution_cmd_info := x; gcp_conn_id := c;
                impersonation_chain := i; poll_interval := s |}
    | _, _, _, _, _, _, _ => None
    end
  else None.

(** [try: result = await ... except AirflowException as ex: ...]: an
    exception of another class is not caught and leaves [run]. *)
Definition run (self : t) : coroutine :=
  awaited <- ITree.trigger
    (wait_command_execution_result (gcp_hook self) (project_id self)
       (region self) (environment_id self) (execution_cmd_info self)
       (poll_interval self));;
  match awaited with
  | Raised ex =>
      if exn_is_airflow ex then
        ITree.trigger (yield {| payload :=
          [ ("status", PStr "error");
            ("message", PStr (exn_str ex)) ] |});;
        Ret (Returned tt)
      else Ret (Raised ex)
  | Returned result =>
      ITree.trigger (yield {| payload :=
        [ ("status", PStr "success");
          ("result", result) ] |});;
      Ret (Returned tt)
  end.

End CloudComposerAirflowCLICommandTrigger.

(** The two trigger classes of the module, as the triggerer sees them: a
    trigger is one or the other. *)
Inductive trigger : Type :=
| Execution (self : CloudComposerExecutionTrigger.t)
| AirflowCLICommand (self : CloudComposerAirflowCLICommandTrigger.t).

Definition run (w : trigger) : coroutine :=
  match w with
  | Execution self => CloudComposerExecutionTrigger.run self
  | AirflowCLICommand self => CloudComposerAirflowCLICommandTrigger.run self
  end.

(* ===================================================================== *)
(** ** Running a trigger against a remote client *)
(* ===================================================================== *)

(** A remote client: what the n-th call made on it answers, as a function of
    the call's arguments.  The call number makes it stateful, the way a mocked
    hook with a list of side effects is. *)
Record Remote : Type := {
  on_get_operation :
    nat -> CloudComposerAsyncHook -> string -> outcome Operation;
  on_wait_command_execution_result :
    nat -> CloudComposerAsyncHook -> string -> string -> string -> dict -> Z ->
    outcome pyval
}.

(** What an outside observer sees of a run, in order. *)
Inductive Obs : Type :=
| ObsGetOperation (hook : CloudComposerAsyncHook) (operation_name : string)
| ObsWait (hook : CloudComposerAsyncHook)
    (project_id region environment_id : string) (execution_cmd_info : dict)
    (poll_interval : Z)
| ObsSleep (seconds : Z)
| ObsYield (event : TriggerEvent).

Record World : Type := {
  hook_calls : nat;       (* calls made on the remote client so far *)
  journal : list Obs      (* observations, oldest first *)
}.

Definition fresh : World := {| hook_calls := 0; journal := [] |}.

Definition record (o : Obs) (st : World) : World :=
  {| hook_calls := hook_calls st; journal := journal st ++ [o] |}.

Definition called (o : Obs) (st : World) : World :=
  {| hook_calls := S (hook_calls st); journal := journal st ++ [o] |}.

Definition handle (remote : Remote) {X : Type} (e : effect X) (st : World)
  : World * X :=
  match e in effect X return World * X with
  | get_operation hook operation_name =>
      (called (ObsGetOperation hook operation_name) st,
       on_get_operation remote (hook_calls st) hook operation_name)
  | wait_command_execution_result hook p r e i s =>
      (called (ObsWait hook p r e i s) st,
       on_wait_command_execution_result remote (hook_calls st) hook p r e i s)
  | sleep seconds => (record (ObsSleep seconds) st, tt)
  | yield event => (record (ObsYield event) st, tt)
  end.

(** [exec fuel remote t st] runs [t] for at most [fuel] steps: every effect,
    every silent step and the final return cost one.  The result is the world
    reached and, when the coroutine has ended within the budget, how. *)
Fixpoint exec {R : Type} (fuel : nat) (remote : Remote) (t : itree effect R)
    (st : World) : World * option R :=
  match fuel with
  | O => (st, None)
  | S fuel' =>
      match observe t with
      | RetF r => (st, Some r)
      | TauF t' => exec fuel' remote t' st
      | VisF e k =>
          let '(st', answer) := handle remote e st in
          exec fuel' remote (k answer) st'
      end
  end.

(** Projections of a journal. *)
Fixpoint events (j : list Obs) : list TriggerEvent :=
  match j with
  | [] => []
  | ObsYield ev :: rest => ev :: events rest
  | _ :: rest => events rest
  end.

Fixpoint sleeps (j : list Obs) : list Z :=
  match j with
  | [] => []
  | ObsSleep s :: rest => s :: sleeps rest
  | _ :: rest => sleeps rest
  end.

(** A terminal event: [operation_done] true, or a [status] of success or
    error. *)
Definition is_terminal (ev : TriggerEvent) : bool :=
  match lookup "operation_done" (payload ev), lookup "status" (payload ev) with
  | Some (PBool true), _ => true
  | _, Some (PStr s) => String.eqb s "success" || String.eqb s "error"
  | _, _ => false
  end.

Definition terminal_events (j : list Obs) : nat :=
  length (filter is_terminal (events j)).

(** A poll answered with a handle that is neither done nor in error. *)
Definition is_pending (r : outcome Operation) : bool :=
  match r with
  | Returned op => negb (done op) && negb (truthy (error_message op))
  | Raised _ => false
  end.

(* ===================================================================== *)
(** ** Vocabulary of the statements *)
(* ===================================================================== *)

Module Exe := CloudComposerExecutionTrigger.
Module Cli := CloudComposerAirflowCLICommandTrigger.

(** The world after the execution trigger has called [get_operation] once. *)
Definition polled (self : Exe.t) (st : World) : World :=
  called (ObsGetOperation (Exe.gcp_hook self) (Exe.operation_name self)) st.

(** The world after [n] full turns of the loop: a poll, then a sleep. *)
Fixpoint rounds (n : nat) (self : Exe.t) (st : World) : World :=
  match n with
  | O => st
  | S k =>
      rounds k self
        (record (ObsSleep (Exe.pooling_period_seconds self)) (polled self st))
  end.

(** The event built from the operation the loop was left with. *)
Definition done_event (op : Operation) : TriggerEvent :=
  {| payload := [ ("operation_name", PStr (name op));
                  ("operation_done", PBool (done op)) ] |}.

(** The world after the command trigger has made its one call. *)
Definition waited (self : Cli.t) (st : World) : World :=
  called (ObsWait (Cli.gcp_hook self) (Cli.project_id self) (Cli.region self)
            (Cli.environment_id self) (Cli.execution_cmd_info self)
            (Cli.poll_interval self)) st.

Definition error_event (ex : exn) : TriggerEvent :=
  {| payload := [ ("status", PStr "error"); ("message", PStr (exn_str ex)) ] |}.

Definition success_event (result : pyval) : TriggerEvent :=
  {| payload := [ ("status", PStr "success"); ("result", result) ] |}.

(** What the execution trigger's hook answers on call [i]. *)
Definition answer (remote : Remote) (self : Exe.t) (i : nat)
  : outcome Operation :=
  on_get_operation remote i (Exe.gcp_hook self) (Exe.operation_name self).

(** What the command trigger's hook answers on call [i]. *)
Definition verdict (remote : Remote) (self : Cli.t) (i : nat) : outcome pyval :=
  on_wait_command_execution_result remote i (Cli.gcp_hook self)
    (Cli.project_id self) (Cli.region self) (Cli.environment_id self)
    (Cli.execution_cmd_info self) (Cli.poll_interval self).

(** A remote client scripted by a list of answers to [get_operation] and one
    answer to [wait_command_execution_result]; past the end of the list the
    operation is reported still running. *)
Definition running : Operation :=
  {| name := "operations/running"; done := false; error_message := "" |}.

Definition scripted (ops : list (outcome Operation)) (cmd : outcome pyval)
  : Remote :=
  {| on_get_operation := fun i _ _ => nth i ops (Returned running);
     on_wait_command_execution_result := fun _ _ _ _ _ _ _ => cmd |}.

(** Sample triggers. *)
Definition sample_execution : Exe.t :=
  {| Exe.project_id := "proj"; Exe.region := "us-central1";
     Exe.operation_name := "operations/op-1";
     Exe.gcp_conn_id := "google_cloud_default";
     Exe.impersonation_chain := Some (inr ["sa-1"; "sa-2"]);
     Exe.pooling_period_seconds := 30 |}.

Definition sample_command : Cli.t :=
  {| Cli.project_id := "proj"; Cli.region := "us-central1";
     Cli.environment_id := "env-1";
     Cli.execution_cmd_info :=
       [ ("execution_id", PStr "e-1"); ("pod", PStr "worker-0");
         ("pod_namespace", PStr "composer"); ("error", PStr "") ];
     Cli.gcp_conn_id := "google_cloud_default";
     Cli.impersonation_chain := Some (inl "sa-1");
     Cli.poll_interval := 10 |}.

(** Sample answers of the hook. *)
Definition still_running : outcome Operation :=
  Returned {| name := "operations/op-1"; done := false; error_message := "" |}.

Definition finished : outcome Operation :=
  Returned {| name := "operations/op-1"; done := true; error_message := "" |}.

Definition failed_running : outcome Operation :=
  Returned {| name := "operations/op-1"; done := false;
              error_message := "quota exceeded" |}.

Definition failed_done : outcome Operation :=
  Returned {| name := "operations/op-1"; done := true;
              error_message := "quota exceeded" |}.

Definition renamed_done : outcome Operation :=
  Returned {| name := "operations/op-2"; done := true; error_message := "" |}.

(** Sample exceptions raised by the hook. *)
Definition boom : exn := AirflowException "boom".

Definition timed_out : exn :=
  {| exn_class := "TimeoutError"; exn_is_airflow := false;
     exn_str := "deadline exceeded" |}.

Definition sample_result : pyval :=
  PDict [ ("output", PList [ PDict [ ("line_number", PInt 1);
                                     ("content", PStr "ok") ] ]);
          ("output_end", PBool true);
          ("exit_info", PDict [ ("exit_code", PInt 0); ("error", PStr "") ]) ].

(** Poll error propagation, read literally: any first handle with a
    non-empty error message makes the run end in an error, with no event. *)
Definition poll_error_propagation_as_stated : Prop :=
  forall (remote : Remote) (self : Exe.t) (op : Operation),
    answer remote self 0 = Returned op ->
    truthy (error_message op) = true ->
    exists fuel st' e,
      exec fuel remote (Exe.run self) fresh = (st', Some (Raised e)) /\
      events (journal st') = [] /\
      contains (exn_str e) (error_message op).

(** One full turn of the loop, as the journal shows it. *)
Definition turn (self : Exe.t) : list Obs :=
  [ ObsGetOperation (Exe.gcp_hook self) (Exe.operation_name self);
    ObsSleep (Exe.pooling_period_seconds self) ].

(** The [k] calls made from world [st] on are all answered by a handle that
    is neither done nor in error. *)
Definition pendings (remote : Remote) (self : Exe.t) (st : World) (k : nat)
  : Prop :=
  forall i, i < k ->
    is_pending (answer remote self (hook_calls st + i)) = true.

(** The two ways an answer of [get_operation] makes [run] end with an
    exception: the call raised, or the handle is not done and has an error
    message. *)
Inductive raised_by (r : outcome Operation) : exn -> Prop :=
| by_hook (e : exn) : r = Raised e -> raised_by r e
| by_error (op : Operation) :
    r = Returned op -> done op = false -> truthy (error_message op) = true ->
    raised_by r (AirflowException
      ("Cloud Composer Environment error: " ++ error_message op)%string).

(** Where a run of the execution trigger started in [st] can stand, and with
    what result: at the head of the loop after [k] turns, just after the next
    poll, after the event of a done handle (ended or about to), or ended by
    an exception. *)
Inductive reached (remote : Remote) (self : Exe.t) (st : World)
  : World * option (outcome unit) -> Prop :=
| at_head (k : nat) :
    pendings remote self st k ->
    reached remote self st (rounds k self st, None)
| at_poll (k : nat) :
    pendings remote self st k ->
    reached remote self st (polled self (rounds k self st), None)
| at_event (k : nat) (op : Operation) (ended : bool) :
    pendings remote self st k ->
    answer remote self (hook_calls st + k) = Returned op ->
    done op = true ->
    reached remote self st
      (record (ObsYield (done_event op)) (polled self (rounds k self st)),
       if ended then Some (Returned tt) else None)
| at_raise (k : nat) (e : exn) :
    pendings remote self st k ->
    raised_by (answer remote self (hook_calls st + k)) e ->
    reached remote self st (polled self (rounds k self st), Some (Raised e)).

(** The defaults of the keyword parameters in the two signatures. *)
Definition execution_defaults : dict :=
  [ ("gcp_conn_id", PStr "google_cloud_default");
    ("impersonation_chain", PNone);
    ("pooling_period_seconds", PInt 30) ].

Definition command_defaults : dict :=
  [ ("gcp_conn_id", PStr "google_cloud_default");
    ("impersonation_chain", PNone);
    ("poll_interval", PInt 10) ].

(** A hook failure that happens to be an [AirflowException]. *)
Definition not_found : exn :=
  {| exn_class := "AirflowNotFoundException"; exn_is_airflow := true;
     exn_str := "operation not found" |}.

(* ===================================================================== *)
(** ** Journals *)
(* ===================================================================== *)

Lemma events_app (a b : list Obs) : events (a ++ b) = events a ++ events b.
Proof.
  induction a as [|o a IH]; simpl; [reflexivity|].
  destruct o; simpl; rewrite IH; reflexivity.
Qed.

Lemma sleeps_app (a b : list Obs) : sleeps (a ++ b) = sleeps a ++ sleeps b.
Proof.
  induction a as [|o a IH]; simpl; [reflexivity|].
  destruct o; simpl; rewrite IH; reflexivity.
Qed.

Lemma events_polled self st :
  events (journal (polled self st)) = events (journal st).
Proof. simpl. rewrite events_app. simpl. apply app_nil_r. Qed.

Lemma sleeps_polled self st :
  sleeps (journal (polled self st)) = sleeps (journal st).
Proof. simpl. rewrite sleeps_app. simpl. apply app_nil_r. Qed.

Lemma events_slept s st :
  events (journal (record (ObsSleep s) st)) = events (journal st).
Proof. simpl. rewrite events_app. simpl. apply app_nil_r. Qed.

Lemma events_yielded ev st :
  events (journal (record (ObsYield ev) st)) = events (journal st) ++ [ev].
Proof. simpl. rewrite events_app. reflexivity. Qed.

Lemma sleeps_yielded ev st :
  sleeps (journal (record (ObsYield ev) st)) = sleeps (journal st).
Proof. simpl. rewrite sleeps_app. simpl. apply app_nil_r. Qed.

Lemma events_waited self st :
  events (journal (waited self st)) = events (journal st).
Proof. simpl. rewrite events_app. simpl. apply app_nil_r. Qed.

Lemma hook_calls_rounds n self st :
  hook_calls (rounds n self st) = hook_calls st + n.
Proof.
  revert st. induction n as [|n IH]; intros st; simpl.
  - lia.
  - rewrite IH. simpl. lia.
Qed.

Lemma events_rounds n self st :
  events (journal (rounds n self st)) = events (journal st).
Proof.
  revert st. induction n as [|n IH]; intros st; simpl; [reflexivity|].
  rewrite IH, events_slept. apply events_polled.
Qed.

Lemma sleeps_rounds n self st :
  sleeps (journal (rounds n self st)) =
  sleeps (journal st) ++ repeat (Exe.pooling_period_seconds self) n.
Proof.
  revert st. induction n as [|n IH]; intros st; simpl.
  - symmetry. apply app_nil_r.
  - rewrite IH. simpl journal. rewrite !sleeps_app. simpl.
    rewrite app_nil_r, <- app_assoc. reflexivity.
Qed.

(** The journal of [n] turns from a fresh world: poll, sleep, [n] times. *)
Lemma journal_rounds n self st :
  journal (rounds n self st) =
  journal st ++
  concat (repeat [ ObsGetOperation (Exe.gcp_hook self) (Exe.operation_name self);
                   ObsSleep (Exe.pooling_period_seconds self) ] n).
Proof.
  revert st. induction n as [|n IH]; intros st; simpl.
  - symmetry. apply app_nil_r.
  - rewrite IH. simpl. rewrite <- !app_assoc. reflexivity.
Qed.

(* ===================================================================== *)
(** ** One step of each coroutine *)
(* ===================================================================== *)

(** What [exec] does with the execution trigger, by the answer of the poll:
    the only recursive case is the pending one, after poll, sleep and the
    silent step back to the head of the loop. *)
Lemma exec_run_unfold remote self st fuel :
  exec (S fuel) remote (Exe.run self) st =
  match answer remote self (hook_calls st) with
  | Raised e => exec fuel remote (Ret (Raised e)) (polled self st)
  | Returned op =>
      if done op then
        match fuel with
        | O => (polled self st, None)
        | S f =>
            exec f remote (Ret (Returned tt))
              (record (ObsYield (done_event op)) (polled self st))
        end
      else if truthy (error_message op) then
        exec fuel remote
          (Ret (Raised (AirflowException
             ("Cloud Composer Environment error: " ++ error_message op)%string)))
          (polled self st)
      else
        match fuel with
        | O => (polled self st, None)
        | 1 => (record (ObsSleep (Exe.pooling_period_seconds self))
                  (polled self st), None)
        | S (S f) =>
            exec f remote (Exe.run self)
              (record (ObsSleep (Exe.pooling_period_seconds self))
                 (polled self st))
        end
  end.
Proof.
  unfold answer. cbn -[String.append].
  destruct (on_get_operation remote (hook_calls st) (Exe.gcp_hook self)
              (Exe.operation_name self)) as [[nm [|] [|c msg]]|e];
    destruct fuel as [|[|f]]; cbn -[String.append]; reflexivity.
Qed.

(** The command trigger never loops: one call, at most one event, the end. *)
Lemma exec_command_unfold remote self st fuel :
  exec (S fuel) remote (Cli.run self) st =
  match verdict remote self (hook_calls st) with
  | Raised ex =>
      if exn_is_airflow ex then
        match fuel with
        | O => (waited self st, None)
        | S f =>
            exec f remote (Ret (Returned tt))
              (record (ObsYield (error_event ex)) (waited self st))
        end
      else exec fuel remote (Ret (Raised ex)) (waited self st)
  | Returned result =>
      match fuel with
      | O => (waited self st, None)
      | S f =>
          exec f remote (Ret (Returned tt))
            (record (ObsYield (success_event result)) (waited self st))
      end
  end.
Proof.
  unfold verdict. cbn.
  destruct (on_wait_command_execution_result remote (hook_calls st)
              (Cli.gcp_hook self) (Cli.project_id self) (Cli.region self)
              (Cli.environment_id self) (Cli.execution_cmd_info self)
              (Cli.poll_interval self)) as [result|[cls [|] msg]];
    destruct fuel as [|[|f]]; cbn; reflexivity.
Qed.

Lemma exec_ret {R : Type} remote (r : R) st fuel :
  exec (S fuel) remote (Ret r) st = (st, Some r).
Proof. reflexivity. Qed.

Lemma is_pending_inv r :
  is_pending r = true ->
  exists op, r = Returned op /\ done op = false /\ truthy (error_message op) = false.
Proof.
  destruct r as [op|e]; simpl; [|discriminate].
  intros H. apply andb_true_iff in H. destruct H as [Hd He].
  exists op. repeat split.
  - now apply negb_true_iff.
  - now apply negb_true_iff.
Qed.

(** [n] pending answers in a row cost three steps each and lead back to the
    head of the loop, [n] turns later. *)
Lemma exec_rounds remote self n : forall st fuel,
  (forall i, i < n -> is_pending (answer remote self (hook_calls st + i)) = true) ->
  exec (3 * n + fuel) remote (Exe.run self) st =
  exec fuel remote (Exe.run self) (rounds n self st).
Proof.
  induction n as [|n IH]; intros st fuel Hpending.
  - reflexivity.
  - replace (3 * S n + fuel) with (S (S (S (3 * n + fuel)))) by lia.
    rewrite exec_run_unfold.
    destruct (is_pending_inv _ (Hpending 0 ltac:(lia))) as (op & Hop & Hd & He).
    rewrite Nat.add_0_r in Hop. rewrite Hop, Hd, He.
    simpl rounds. apply IH. intros i Hi.
    replace (hook_calls _ + i) with (hook_calls st + S i) by (simpl; lia).
    apply Hpending. lia.
Qed.

(** After [n] pending answers, a done answer ends the run with one event. *)
Lemma exec_done_after remote self n op st fuel :
  (forall i, i < n -> is_pending (answer remote self (hook_calls st + i)) = true) ->
  answer remote self (hook_calls st + n) = Returned op ->
  done op = true ->
  exec (3 * n + (3 + fuel)) remote (Exe.run self) st =
  (record (ObsYield (done_event op)) (polled self (rounds n self st)),
   Some (Returned tt)).
Proof.
  intros Hpending Hop Hd.
  rewrite exec_rounds by assumption.
  change (3 + fuel) with (S (S (S fuel))).
  rewrite exec_run_unfold, hook_calls_rounds, Hop, Hd.
  apply exec_ret.
Qed.

Lemma exec_first_step remote self st :
  fst (exec 1 remote (Exe.run self) st) = polled self st.
Proof.
  rewrite exec_run_unfold.
  destruct (answer remote self (hook_calls st)) as [op|e]; [|reflexivity].
  destruct (done op); [reflexivity|].
  destruct (truthy (error_message op)); reflexivity.
Qed.

Lemma contains_suffix (pre s : string) : contains (pre ++ s)%string s.
Proof.
  exists pre, EmptyString.
  replace (s ++ "")%string with s; [reflexivity|].
  induction s as [|c s IH]; simpl; [reflexivity|].
  now rewrite <- IH.
Qed.

(* ===================================================================== *)
(** ** The execution trigger *)
(* ===================================================================== *)

(** C1, as the code has it: when the first handle returned by
    [get_operation] is not done and carries a non-empty error message, [run]
    yields no event and ends with an [AirflowException] whose text is
    "Cloud Composer Environment error: " followed by that message. *)
Theorem poll_error_propagation remote self op fuel :
  answer remote self 0 = Returned op ->
  done op = false ->
  truthy (error_message op) = true ->
  2 <= fuel ->
  exec fuel remote (Exe.run self) fresh =
    (polled self fresh,
     Some (Raised (AirflowException
       ("Cloud Composer Environment error: " ++ error_message op)%string))) /\
  events (journal (polled self fresh)) = [] /\
  contains
    (exn_str (AirflowException
       ("Cloud Composer Environment error: " ++ error_message op)%string))
    (error_message op).
Proof.
  intros Hop Hd He Hfuel.
  destruct fuel as [|[|fuel]]; try lia.
  split; [|split].
  - rewrite exec_run_unfold. simpl hook_calls. rewrite Hop, Hd, He.
    apply exec_ret.
  - reflexivity.
  - apply contains_suffix.
Qed.

Lemma poll_error_propagation_witness :
  exec 2 (scripted [failed_running] (Returned PNone))
    (Exe.run sample_execution) fresh =
    (polled sample_execution fresh,
     Some (Raised (AirflowException
       "Cloud Composer Environment error: quota exceeded"))) /\
  events (journal (polled sample_execution fresh)) = [] /\
  contains "Cloud Composer Environment error: quota exceeded" "quota exceeded".
Proof.
  apply (poll_error_propagation (scripted [failed_running] (Returned PNone))
           sample_execution
           {| name := "operations/op-1"; done := false;
              error_message := "quota exceeded" |} 2);
    [reflexivity | reflexivity | reflexivity | lia].
Defined.

(** C1, as stated, fails.  The hook's first answer is a handle that is done
    and carries the error message "quota exceeded": from three steps on the
    run has ended normally with one event, and no number of steps makes it
    end with an exception. *)
Lemma poll_error_propagation_counterexample :
  answer (scripted [failed_done] (Returned PNone)) sample_execution 0 =
    failed_done /\
  truthy "quota exceeded" = true /\
  (forall fuel,
     exec (3 + fuel) (scripted [failed_done] (Returned PNone))
       (Exe.run sample_execution) fresh =
     ({| hook_calls := 1;
         journal :=
           [ ObsGetOperation (Exe.gcp_hook sample_execution) "operations/op-1";
             ObsYield {| payload :=
               [ ("operation_name", PStr "operations/op-1");
                 ("operation_done", PBool true) ] |} ] |},
      Some (Returned tt))) /\
  (forall fuel st' e,
     exec fuel (scripted [failed_done] (Returned PNone))
       (Exe.run sample_execution) fresh <> (st', Some (Raised e))) /\
  ~ poll_error_propagation_as_stated.
Proof.
  assert (Hnever : forall fuel st' e,
     exec fuel (scripted [failed_done] (Returned PNone))
       (Exe.run sample_execution) fresh <> (st', Some (Raised e))).
  { intros fuel st' e Hrun.
    destruct fuel as [|[|[|fuel]]];
      [ discriminate Hrun
      | rewrite exec_run_unfold in Hrun; discriminate Hrun .. ]. }
  split; [reflexivity|]. split; [reflexivity|]. split; [|split].
  - intros fuel. change (3 + fuel) with (S (S (S fuel))).
    rewrite exec_run_unfold. reflexivity.
  - exact Hnever.
  - intros claim.
    destruct (claim (scripted [failed_done] (Returned PNone)) sample_execution
                {| name := "operations/op-1"; done := true;
                   error_message := "quota exceeded" |}
                eq_refl eq_refl) as (fuel & st' & e & Hrun & _).
    exact (Hnever fuel st' e Hrun).
Qed.

(** C2: when the first [N] answers are handles that are not done and have an
    empty error message and answer [N+1] is a done handle, [run] ends
    normally after sleeping exactly [N] times, each time for
    [pooling_period_seconds], and yields exactly one event, whose
    [operation_done] is true. *)
Theorem poll_termination N remote self op fuel :
  (forall i, i < N -> is_pending (answer remote self i) = true) ->
  answer remote self N = Returned op ->
  done op = true ->
  3 * N + 3 <= fuel ->
  exists st',
    exec fuel remote (Exe.run self) fresh = (st', Some (Returned tt)) /\
    sleeps (journal st') = repeat (Exe.pooling_period_seconds self) N /\
    hook_calls st' = S N /\
    exists ev,
      events (journal st') = [ev] /\
      lookup "operation_done" (payload ev) = Some (PBool true).
Proof.
  intros Hpending Hop Hd Hfuel.
  exists (record (ObsYield (done_event op)) (polled self (rounds N self fresh))).
  split; [|split; [|split]].
  - replace fuel with (3 * N + (3 + (fuel - (3 * N + 3)))) by lia.
    apply exec_done_after; assumption.
  - rewrite sleeps_yielded, sleeps_polled, sleeps_rounds. reflexivity.
  - simpl. rewrite hook_calls_rounds. reflexivity.
  - exists (done_event op). split.
    + rewrite events_yielded, events_polled, events_rounds. reflexivity.
    + simpl. rewrite Hd. reflexivity.
Qed.

Lemma poll_termination_witness :
  exists st',
    exec 9 (scripted [still_running; still_running; finished] (Returned PNone))
      (Exe.run sample_execution) fresh = (st', Some (Returned tt)) /\
    sleeps (journal st') = repeat 30%Z 2 /\
    hook_calls st' = 3 /\
    exists ev,
      events (journal st') = [ev] /\
      lookup "operation_done" (payload ev) = Some (PBool true).
Proof.
  apply (poll_termination 2
           (scripted [still_running; still_running; finished] (Returned PNone))
           sample_execution
           {| name := "operations/op-1"; done := true; error_message := "" |} 9).
  - intros i Hi. destruct i as [|[|i]]; [reflexivity | reflexivity | lia].
  - reflexivity.
  - reflexivity.
  - lia.
Defined.

(** C8: the loop has no retry limit and no backoff.  For every [N], if the
    first [N] answers are handles that are not done and have an empty error
    message, then [run] makes call [N+1] on the hook, and what it did until
    then is [N] times a poll followed by a sleep of the same
    [pooling_period_seconds]. *)
Theorem no_retry_limit_no_backoff N remote self :
  (forall i, i < N -> is_pending (answer remote self i) = true) ->
  let st := fst (exec (3 * N + 1) remote (Exe.run self) fresh) in
  hook_calls st = S N /\
  journal st =
    concat (repeat
      [ ObsGetOperation (Exe.gcp_hook self) (Exe.operation_name self);
        ObsSleep (Exe.pooling_period_seconds self) ] N)
    ++ [ ObsGetOperation (Exe.gcp_hook self) (Exe.operation_name self) ] /\
  sleeps (journal st) = repeat (Exe.pooling_period_seconds self) N.
Proof.
  intros Hpending st. subst st.
  rewrite exec_rounds by assumption.
  rewrite exec_first_step.
  split; [|split].
  - simpl. rewrite hook_calls_rounds. reflexivity.
  - simpl. rewrite journal_rounds. reflexivity.
  - rewrite sleeps_polled, sleeps_rounds. reflexivity.
Qed.

Lemma no_retry_limit_no_backoff_witness :
  let st := fst (exec (3 * 4 + 1) (scripted [] (Returned PNone))
                   (Exe.run sample_execution) fresh) in
  hook_calls st = 5 /\
  journal st =
    concat (repeat
      [ ObsGetOperation (Exe.gcp_hook sample_execution) "operations/op-1";
        ObsSleep 30%Z ] 4)
    ++ [ ObsGetOperation (Exe.gcp_hook sample_execution) "operations/op-1" ] /\
  sleeps (journal st) = repeat 30%Z 4.
Proof.
  apply (no_retry_limit_no_backoff 4 (scripted [] (Returned PNone))
           sample_execution).
  intros i _. destruct i as [|[|[|[|i]]]]; reflexivity.
Defined.

(** C9: the done check comes first, on every turn of the loop.  Whenever
    the hook returns a handle that is done and also carries a non-empty
    error message (on the first call, or after any number [N] of pending
    answers), [run] yields the event with the handle's name and
    [operation_done] true and ends normally; no exception is raised. *)
Theorem done_precedes_error N remote self op fuel :
  (forall i, i < N -> is_pending (answer remote self i) = true) ->
  answer remote self N = Returned op ->
  done op = true ->
  truthy (error_message op) = true ->
  3 * N + 3 <= fuel ->
  exec fuel remote (Exe.run self) fresh =
    (record (ObsYield (done_event op)) (polled self (rounds N self fresh)),
     Some (Returned tt)) /\
  events (journal (record (ObsYield (done_event op))
                     (polled self (rounds N self fresh)))) =
    [ {| payload := [ ("operation_name", PStr (name op));
                      ("operation_done", PBool true) ] |} ] /\
  sleeps (journal (record (ObsYield (done_event op))
                     (polled self (rounds N self fresh)))) =
    repeat (Exe.pooling_period_seconds self) N /\
  hook_calls (record (ObsYield (done_event op))
                (polled self (rounds N self fresh))) = S N.
Proof.
  intros Hpending Hop Hd _ Hfuel. split; [|split; [|split]].
  - replace fuel with (3 * N + (3 + (fuel - (3 * N + 3)))) by lia.
    apply exec_done_after; assumption.
  - rewrite events_yielded, events_polled, events_rounds.
    unfold done_event. rewrite Hd. reflexivity.
  - rewrite sleeps_yielded, sleeps_polled, sleeps_rounds. reflexivity.
  - simpl. rewrite hook_calls_rounds. reflexivity.
Qed.

Lemma done_precedes_error_witness :
  exec 6 (scripted [still_running; failed_done] (Returned PNone))
    (Exe.run sample_execution) fresh =
    (record (ObsYield (done_event
               {| name := "operations/op-1"; done := true;
                  error_message := "quota exceeded" |}))
       (polled sample_execution (rounds 1 sample_execution fresh)),
     Some (Returned tt)) /\
  events (journal (record (ObsYield (done_event
               {| name := "operations/op-1"; done := true;
                  error_message := "quota exceeded" |}))
       (polled sample_execution (rounds 1 sample_execution fresh)))) =
    [ {| payload := [ ("operation_name", PStr "operations/op-1");
                      ("operation_done", PBool true) ] |} ] /\
  sleeps (journal (record (ObsYield (done_event
               {| name := "operations/op-1"; done := true;
                  error_message := "quota exceeded" |}))
       (polled sample_execution (rounds 1 sample_execution fresh)))) =
    repeat 30%Z 1 /\
  hook_calls (record (ObsYield (done_event
               {| name := "operations/op-1"; done := true;
                  error_message := "quota exceeded" |}))
       (polled sample_execution (rounds 1 sample_execution fresh))) = 2.
Proof.
  apply (done_precedes_error 1
           (scripted [still_running; failed_done] (Returned PNone))
           sample_execution
           {| name := "operations/op-1"; done := true;
              error_message := "quota exceeded" |} 6).
  - intros i Hi. destruct i as [|i]; [reflexivity | lia].
  - reflexivity.
  - reflexivity.
  - reflexivity.
  - lia.
Defined.

(** C10: the event reports the handle, not the constructor argument.  When
    the done handle's name differs from the trigger's [operation_name], the
    one event yielded carries the handle's name and the handle's done flag. *)
Theorem event_reports_handle N remote self op fuel :
  (forall i, i < N -> is_pending (answer remote self i) = true) ->
  answer remote self N = Returned op ->
  done op = true ->
  name op <> Exe.operation_name self ->
  3 * N + 3 <= fuel ->
  exists st' ev,
    exec fuel remote (Exe.run self) fresh = (st', Some (Returned tt)) /\
    events (journal st') = [ev] /\
    lookup "operation_name" (payload ev) = Some (PStr (name op)) /\
    lookup "operation_name" (payload ev) <> Some (PStr (Exe.operation_name self)) /\
    lookup "operation_done" (payload ev) = Some (PBool (done op)).
Proof.
  intros Hpending Hop Hd Hname Hfuel.
  exists (record (ObsYield (done_event op)) (polled self (rounds N self fresh))).
  exists (done_event op).
  split; [|split; [|split; [|split]]].
  - replace fuel with (3 * N + (3 + (fuel - (3 * N + 3)))) by lia.
    apply exec_done_after; assumption.
  - rewrite events_yielded, events_polled, events_rounds. reflexivity.
  - reflexivity.
  - simpl. intros H. apply Hname. congruence.
  - reflexivity.
Qed.

Lemma event_reports_handle_witness :
  exists st' ev,
    exec 6 (scripted [still_running; renamed_done] (Returned PNone))
      (Exe.run sample_execution) fresh = (st', Some (Returned tt)) /\
    events (journal st') = [ev] /\
    lookup "operation_name" (payload ev) = Some (PStr "operations/op-2") /\
    lookup "operation_name" (payload ev) <> Some (PStr "operations/op-1") /\
    lookup "operation_done" (payload ev) = Some (PBool true).
Proof.
  apply (event_reports_handle 1
           (scripted [still_running; renamed_done] (Returned PNone))
           sample_execution
           {| name := "operations/op-2"; done := true; error_message := "" |} 6).
  - intros i Hi. destruct i as [|i]; [reflexivity | lia].
  - reflexivity.
  - reflexivity.
  - discriminate.
  - lia.
Defined.

(* ===================================================================== *)
(** ** The command trigger *)
(* ===================================================================== *)

(** C4: when [wait_command_execution_result] raises an [AirflowException]
    whose text is "boom", [run] yields exactly one event, with status
    "error" and message "boom", and ends normally: the exception does not
    leave [run]. *)
Theorem command_failure remote self ex fuel :
  verdict remote self 0 = Raised ex ->
  exn_is_airflow ex = true ->
  exn_str ex = "boom" ->
  3 <= fuel ->
  exists st',
    exec fuel remote (Cli.run self) fresh = (st', Some (Returned tt)) /\
    events (journal st') =
      [ {| payload := [ ("status", PStr "error"); ("message", PStr "boom") ] |} ].
Proof.
  intros Hex Hair Hstr Hfuel.
  destruct fuel as [|[|[|fuel]]]; try lia.
  exists (record (ObsYield (error_event ex)) (waited self fresh)). split.
  - rewrite exec_command_unfold. simpl hook_calls. rewrite Hex, Hair.
    apply exec_ret.
  - rewrite events_yielded, events_waited. unfold error_event.
    rewrite Hstr. reflexivity.
Qed.

Lemma command_failure_witness :
  exists st',
    exec 3 (scripted [] (Raised boom)) (Cli.run sample_command) fresh =
      (st', Some (Returned tt)) /\
    events (journal st') =
      [ {| payload := [ ("status", PStr "error"); ("message", PStr "boom") ] |} ].
Proof.
  apply (command_failure (scripted [] (Raised boom)) sample_command boom 3);
    [reflexivity | reflexivity | reflexivity | lia].
Defined.

(** C5: when [wait_command_execution_result] returns a result [R], [run]
    yields exactly one event, with status "success" and result [R], and ends
    normally; the one call made on the hook carries the trigger's project id,
    region, environment id, execution info and poll interval as they are. *)
Theorem command_success remote self R fuel :
  verdict remote self 0 = Returned R ->
  3 <= fuel ->
  exists st',
    exec fuel remote (Cli.run self) fresh = (st', Some (Returned tt)) /\
    events (journal st') =
      [ {| payload := [ ("status", PStr "success"); ("result", R) ] |} ] /\
    journal st' =
      [ ObsWait (Cli.gcp_hook self) (Cli.project_id self) (Cli.region self)
          (Cli.environment_id self) (Cli.execution_cmd_info self)
          (Cli.poll_interval self);
        ObsYield {| payload := [ ("status", PStr "success"); ("result", R) ] |} ] /\
    hook_calls st' = 1.
Proof.
  intros HR Hfuel.
  destruct fuel as [|[|[|fuel]]]; try lia.
  exists (record (ObsYield (success_event R)) (waited self fresh)).
  split; [|split; [|split]].
  - rewrite exec_command_unfold. simpl hook_calls. rewrite HR.
    apply exec_ret.
  - rewrite events_yielded, events_waited. reflexivity.
  - reflexivity.
  - reflexivity.
Qed.

Lemma command_success_witness :
  exists st',
    exec 3 (scripted [] (Returned sample_result)) (Cli.run sample_command) fresh =
      (st', Some (Returned tt)) /\
    events (journal st') =
      [ {| payload := [ ("status", PStr "success"); ("result", sample_result) ] |} ] /\
    journal st' =
      [ ObsWait (Cli.gcp_hook sample_command) "proj" "us-central1" "env-1"
          (Cli.execution_cmd_info sample_command) 10%Z;
        ObsYield {| payload := [ ("status", PStr "success");
                                 ("result", sample_result) ] |} ] /\
    hook_calls st' = 1.
Proof.
  apply (command_success (scripted [] (Returned sample_result)) sample_command
           sample_result 3); [reflexivity | lia].
Defined.

(** C7: when [wait_command_execution_result] raises an exception that is not
    an [AirflowException], [run] ends with that very exception and yields no
    event. *)
Theorem command_unexpected_error remote self ex fuel :
  verdict remote self 0 = Raised ex ->
  exn_is_airflow ex = false ->
  2 <= fuel ->
  exec fuel remote (Cli.run self) fresh = (waited self fresh, Some (Raised ex)) /\
  events (journal (waited self fresh)) = [].
Proof.
  intros Hex Hair Hfuel.
  destruct fuel as [|[|fuel]]; try lia.
  split; [|reflexivity].
  rewrite exec_command_unfold. simpl hook_calls. rewrite Hex, Hair.
  apply exec_ret.
Qed.

Lemma command_unexpected_error_witness :
  exec 2 (scripted [] (Raised timed_out)) (Cli.run sample_command) fresh =
    (waited sample_command fresh, Some (Raised timed_out)) /\
  events (journal (waited sample_command fresh)) = [].
Proof.
  apply (command_unexpected_error (scripted [] (Raised timed_out))
           sample_command timed_out 2); [reflexivity | reflexivity | lia].
Defined.

(* ===================================================================== *)
(** ** Serialization *)
(* ===================================================================== *)

Lemma strs_of_py_map (l : list string) : strs_of_py (map PStr l) = Some l.
Proof.
  induction l as [|s l IH]; simpl; [reflexivity|].
  rewrite IH. reflexivity.
Qed.

Lemma chain_of_py_of_chain (c : impersonation) :
  chain_of_py (py_of_chain c) = Some c.
Proof.
  destruct c as [[s|l]|]; simpl; try reflexivity.
  rewrite strs_of_py_map. reflexivity.
Qed.

Lemma init_serialize_execution (w : Exe.t) :
  Exe.init (snd (Exe.serialize w)) = Some w.
Proof.
  destruct w as [p r o c i s].
  unfold Exe.init, Exe.serialize, required, defaulted. simpl.
  rewrite chain_of_py_of_chain. reflexivity.
Qed.

Lemma init_serialize_command (w : Cli.t) :
  Cli.init (snd (Cli.serialize w)) = Some w.
Proof.
  destruct w as [p r e x c i s].
  unfold Cli.init, Cli.serialize, required, defaulted. simpl.
  rewrite chain_of_py_of_chain. reflexivity.
Qed.

(** C3: for a trigger [w] of either class, [serialize] returns the class
    path and a dictionary from which the constructor builds a trigger [w2]
    that has every constructor parameter of [w], and running [w2] against the
    same remote client does, step for step, what running [w] does: the same
    events are yielded. *)
Theorem idempotent_resumption :
  (forall w : Exe.t,
     fst (Exe.serialize w) = Exe.classpath /\
     exists w2,
       Exe.init (snd (Exe.serialize w)) = Some w2 /\
       w2 = w /\
       forall remote fuel st,
         exec fuel remote (Exe.run w2) st = exec fuel remote (Exe.run w) st /\
         events (journal (fst (exec fuel remote (Exe.run w2) st))) =
         events (journal (fst (exec fuel remote (Exe.run w) st)))) /\
  (forall w : Cli.t,
     fst (Cli.serialize w) = Cli.classpath /\
     exists w2,
       Cli.init (snd (Cli.serialize w)) = Some w2 /\
       w2 = w /\
       forall remote fuel st,
         exec fuel remote (Cli.run w2) st = exec fuel remote (Cli.run w) st /\
         events (journal (fst (exec fuel remote (Cli.run w2) st))) =
         events (journal (fst (exec fuel remote (Cli.run w) st)))).
Proof.
  split; intros w; (split; [reflexivity|]); exists w.
  - split; [apply init_serialize_execution|]. split; [reflexivity|].
    intros remote fuel st. split; reflexivity.
  - split; [apply init_serialize_command|]. split; [reflexivity|].
    intros remote fuel st. split; reflexivity.
Qed.

(** The dictionary names each constructor parameter, and nothing is dropped
    when a field holds the signature's default. *)
Example serialize_sample_execution :
  snd (Exe.serialize sample_execution) =
    [ ("project_id", PStr "proj"); ("region", PStr "us-central1");
      ("operation_name", PStr "operations/op-1");
      ("gcp_conn_id", PStr "google_cloud_default");
      ("impersonation_chain", PList [PStr "sa-1"; PStr "sa-2"]);
      ("pooling_period_seconds", PInt 30) ].
Proof. reflexivity. Qed.

(** The constructor's defaults, and its refusal of a missing or unknown
    keyword. *)
Example init_defaults :
  Exe.init [ ("project_id", PStr "p"); ("region", PStr "r");
             ("operation_name", PStr "o") ] =
  Some {| Exe.project_id := "p"; Exe.region := "r"; Exe.operation_name := "o";
          Exe.gcp_conn_id := "google_cloud_default";
          Exe.impersonation_chain := None;
          Exe.pooling_period_seconds := 30 |}.
Proof. reflexivity. Qed.

Example init_missing_argument :
  Exe.init [ ("project_id", PStr "p"); ("region", PStr "r") ] = None.
Proof. reflexivity. Qed.

Example init_unexpected_keyword :
  Exe.init [ ("project_id", PStr "p"); ("region", PStr "r");
             ("operation_name", PStr "o"); ("poll_interval", PInt 5) ] = None.
Proof. reflexivity. Qed.

(* ===================================================================== *)
(** ** At most one terminal event *)
(* ===================================================================== *)

Lemma fst_exec_ret {R : Type} remote (r : R) st fuel :
  fst (exec fuel remote (Ret r) st) = st.
Proof. destruct fuel; reflexivity. Qed.

(** Whatever the hook answers and however long it runs, the execution
    trigger adds at most one event to the journal. *)
Lemma execution_yields_bound remote self : forall fuel st,
  length (events (journal (fst (exec fuel remote (Exe.run self) st)))) <=
  S (length (events (journal st))).
Proof.
  induction fuel as [fuel IH] using lt_wf_ind. intros st.
  destruct fuel as [|fuel]; [simpl; lia|].
  rewrite exec_run_unfold.
  destruct (answer remote self (hook_calls st)) as [op|e].
  - destruct (done op).
    + destruct fuel as [|fuel]; cbn [fst].
      * rewrite events_polled. lia.
      * rewrite fst_exec_ret, events_yielded, events_polled, length_app.
        simpl. lia.
    + destruct (truthy (error_message op)).
      * rewrite fst_exec_ret, events_polled. lia.
      * destruct fuel as [|[|fuel]]; cbn [fst].
        -- rewrite events_polled. lia.
        -- rewrite events_slept, events_polled. lia.
        -- eapply Nat.le_trans; [apply IH; lia|].
           rewrite events_slept, events_polled. lia.
  - rewrite fst_exec_ret, events_polled. lia.
Qed.

Lemma command_yields_bound remote self fuel st :
  length (events (journal (fst (exec fuel remote (Cli.run self) st)))) <=
  S (length (events (journal st))).
Proof.
  destruct fuel as [|fuel]; [simpl; lia|].
  rewrite exec_command_unfold.
  destruct (verdict remote self (hook_calls st)) as [result|ex].
  - destruct fuel as [|fuel]; cbn [fst].
    + rewrite events_waited. lia.
    + rewrite fst_exec_ret, events_yielded, events_waited, length_app.
      simpl. lia.
  - destruct (exn_is_airflow ex).
    + destruct fuel as [|fuel]; cbn [fst].
      * rewrite events_waited. lia.
      * rewrite fst_exec_ret, events_yielded, events_waited, length_app.
        simpl. lia.
    + rewrite fst_exec_ret, events_waited. lia.
Qed.

(** The events the triggers yield are the terminal ones. *)
Lemma is_terminal_done op : done op = true -> is_terminal (done_event op) = true.
Proof. intros H. unfold is_terminal, done_event. simpl. rewrite H. reflexivity. Qed.

Lemma is_terminal_error ex : is_terminal (error_event ex) = true.
Proof. reflexivity. Qed.

Lemma is_terminal_success result : is_terminal (success_event result) = true.
Proof. reflexivity. Qed.

(** C6: for a trigger of either class, every remote client and every length
    of run, the events yielded so far hold at most one terminal event (one
    with [operation_done] true, or with status "success" or "error"). *)
Theorem no_double_termination (w : trigger) (remote : Remote) (fuel : nat) :
  terminal_events (journal (fst (exec fuel remote (run w) fresh))) <= 1 /\
  length (events (journal (fst (exec fuel remote (run w) fresh)))) <= 1.
Proof.
  assert (Hlen :
    length (events (journal (fst (exec fuel remote (run w) fresh)))) <= 1).
  { destruct w as [self|self]; simpl run.
    - apply (execution_yields_bound remote self fuel fresh).
    - apply (command_yields_bound remote self fuel fresh). }
  split; [|exact Hlen].
  unfold terminal_events.
  eapply Nat.le_trans; [apply filter_length_le | exact Hlen].
Qed.

(* ===================================================================== *)
(** ** Runs of any length *)
(* ===================================================================== *)

Lemma pendings_head remote self st k :
  pendings remote self st (S k) ->
  exists op,
    answer remote self (hook_calls st) = Returned op /\
    done op = false /\ truthy (error_message op) = false.
Proof.
  intros H. specialize (H 0 ltac:(lia)). rewrite Nat.add_0_r in H.
  now apply is_pending_inv.
Qed.

Lemma pendings_next remote self st k op :
  answer remote self (hook_calls st) = Returned op ->
  done op = false -> truthy (error_message op) = false ->
  pendings remote self
    (record (ObsSleep (Exe.pooling_period_seconds self)) (polled self st)) k ->
  pendings remote self st (S k).
Proof.
  intros Hop Hd He H i Hi. destruct i as [|i].
  - rewrite Nat.add_0_r, Hop. simpl. rewrite Hd, He. reflexivity.
  - specialize (H i ltac:(lia)). simpl in H.
    replace (hook_calls st + S i) with (S (hook_calls st + i)) by lia.
    exact H.
Qed.

Lemma pendings_zero remote self st : pendings remote self st 0.
Proof. intros i Hi. lia. Qed.

(** Every budget leaves the run in one of the four stands of [reached]. *)
Lemma exec_reached remote self : forall fuel st,
  reached remote self st (exec fuel remote (Exe.run self) st).
Proof.
  induction fuel as [fuel IH] using lt_wf_ind. intros st.
  destruct fuel as [|fuel].
  { apply (at_head remote self st 0), pendings_zero. }
  rewrite exec_run_unfold.
  destruct (answer remote self (hook_calls st)) as [op|e] eqn:Hop.
  - destruct (done op) eqn:Hd.
    + destruct fuel as [|[|fuel]].
      * apply (at_poll remote self st 0), pendings_zero.
      * apply (at_event remote self st 0 op false);
          [apply pendings_zero | now rewrite Nat.add_0_r | assumption].
      * apply (at_event remote self st 0 op true);
          [apply pendings_zero | now rewrite Nat.add_0_r | assumption].
    + destruct (truthy (error_message op)) eqn:He.
      * destruct fuel as [|fuel].
        -- apply (at_poll remote self st 0), pendings_zero.
        -- apply (at_raise remote self st 0); [apply pendings_zero|].
           rewrite Nat.add_0_r, Hop. now apply by_error with (op := op).
      * destruct fuel as [|[|fuel]].
        -- apply (at_poll remote self st 0), pendings_zero.
        -- apply (at_head remote self st 1).
           eapply pendings_next; eauto using pendings_zero.
        -- specialize (IH fuel ltac:(lia)
             (record (ObsSleep (Exe.pooling_period_seconds self)) (polled self st))).
           inversion IH as [k Hk|k Hk|k op' ended Hk Hop' Hd'|k e Hk He'].
           ++ apply (at_head remote self st (S k)). eapply pendings_next; eauto.
           ++ apply (at_poll remote self st (S k)). eapply pendings_next; eauto.
           ++ apply (at_event remote self st (S k) op' ended);
                [eapply pendings_next; eauto | | assumption].
              simpl in Hop'.
              replace (hook_calls st + S k) with (S (hook_calls st + k)) by lia.
              exact Hop'.
           ++ apply (at_raise remote self st (S k));
                [eapply pendings_next; eauto|].
              simpl in He'.
              replace (hook_calls st + S k) with (S (hook_calls st + k)) by lia.
              exact He'.
  - destruct fuel as [|fuel].
    + apply (at_poll remote self st 0), pendings_zero.
    + apply (at_raise remote self st 0); [apply pendings_zero|].
      rewrite Nat.add_0_r, Hop. now apply by_hook.
Qed.

Lemma pendings_fresh remote self k :
  (forall i, i < k -> is_pending (answer remote self i) = true) ->
  pendings remote self fresh k.
Proof. intros H i Hi. simpl. now apply H. Qed.

(** A run that meets the first answer that is not pending at call [n] has
    gone round at most [n] times. *)
Lemma pendings_before remote self k n :
  pendings remote self fresh k ->
  is_pending (answer remote self n) = false ->
  k <= n.
Proof.
  intros Hk Hn. destruct (Nat.le_gt_cases k n) as [Hle|Hgt]; [exact Hle|].
  specialize (Hk n Hgt). simpl in Hk. congruence.
Qed.

Lemma raised_by_not_pending r e : raised_by r e -> is_pending r = false.
Proof.
  intros [e' Hr|op Hr Hd He]; subst r; simpl; [reflexivity|].
  rewrite He. apply andb_false_r.
Qed.

(** After [n] pending answers, an exception raised by the hook ends the run. *)
Lemma exec_raised_after remote self n e st fuel :
  pendings remote self st n ->
  answer remote self (hook_calls st + n) = Raised e ->
  exec (3 * n + (2 + fuel)) remote (Exe.run self) st =
  (polled self (rounds n self st), Some (Raised e)).
Proof.
  intros Hpending He.
  rewrite exec_rounds by assumption.
  change (2 + fuel) with (S (S fuel)).
  rewrite exec_run_unfold, hook_calls_rounds, He.
  apply exec_ret.
Qed.

(** After [n] pending answers, a handle in error ends the run. *)
Lemma exec_error_after remote self n op st fuel :
  pendings remote self st n ->
  answer remote self (hook_calls st + n) = Returned op ->
  done op = false ->
  truthy (error_message op) = true ->
  exec (3 * n + (2 + fuel)) remote (Exe.run self) st =
  (polled self (rounds n self st),
   Some (Raised (AirflowException
     ("Cloud Composer Environment error: " ++ error_message op)%string))).
Proof.
  intros Hpending Hop Hd He.
  rewrite exec_rounds by assumption.
  change (2 + fuel) with (S (S fuel)).
  rewrite exec_run_unfold, hook_calls_rounds, Hop, Hd, He.
  apply exec_ret.
Qed.

(** X1: an exception raised by [get_operation] is not caught by the
    execution trigger, whatever its class ([AirflowException] included).  If
    the first [N] answers are pending and call [N+1] raises [e], the run ends
    with [e] itself, after [N] sleeps and without an event. *)
Theorem hook_exception_propagates N remote self e fuel :
  (forall i, i < N -> is_pending (answer remote self i) = true) ->
  answer remote self N = Raised e ->
  3 * N + 2 <= fuel ->
  exists st',
    exec fuel remote (Exe.run self) fresh = (st', Some (Raised e)) /\
    events (journal st') = [] /\
    sleeps (journal st') = repeat (Exe.pooling_period_seconds self) N /\
    hook_calls st' = S N.
Proof.
  intros Hpending He Hfuel.
  exists (polled self (rounds N self fresh)).
  split; [|split; [|split]].
  - replace fuel with (3 * N + (2 + (fuel - (3 * N + 2)))) by lia.
    apply exec_raised_after; [now apply pendings_fresh | exact He].
  - rewrite events_polled, events_rounds. reflexivity.
  - rewrite sleeps_polled, sleeps_rounds. reflexivity.
  - simpl. rewrite hook_calls_rounds. reflexivity.
Qed.

Lemma hook_exception_propagates_witness :
  exists st',
    exec 5 (scripted [still_running; Raised not_found] (Returned PNone))
      (Exe.run sample_execution) fresh = (st', Some (Raised not_found)) /\
    events (journal st') = [] /\
    sleeps (journal st') = repeat 30%Z 1 /\
    hook_calls st' = 2.
Proof.
  apply (hook_exception_propagates 1
           (scripted [still_running; Raised not_found] (Returned PNone))
           sample_execution not_found 5).
  - intros i Hi. destruct i as [|i]; [reflexivity | lia].
  - reflexivity.
  - lia.
Defined.

(** X2: an error reported on a later poll.  If the first [N] answers are
    pending and answer [N+1] is a handle that is not done and has a non-empty
    error message, the run ends with the [AirflowException]
    "Cloud Composer Environment error: " followed by the message, after [N]
    sleeps of [pooling_period_seconds] and without an event. *)
Theorem poll_error_after_rounds N remote self op fuel :
  (forall i, i < N -> is_pending (answer remote self i) = true) ->
  answer remote self N = Returned op ->
  done op = false ->
  truthy (error_message op) = true ->
  3 * N + 2 <= fuel ->
  exists st',
    exec fuel remote (Exe.run self) fresh =
      (st', Some (Raised (AirflowException
         ("Cloud Composer Environment error: " ++ error_message op)%string))) /\
    events (journal st') = [] /\
    sleeps (journal st') = repeat (Exe.pooling_period_seconds self) N /\
    hook_calls st' = S N.
Proof.
  intros Hpending Hop Hd He Hfuel.
  exists (polled self (rounds N self fresh)).
  split; [|split; [|split]].
  - replace fuel with (3 * N + (2 + (fuel - (3 * N + 2)))) by lia.
    apply exec_error_after; [now apply pendings_fresh | assumption ..].
  - rewrite events_polled, events_rounds. reflexivity.
  - rewrite sleeps_polled, sleeps_rounds. reflexivity.
  - simpl. rewrite hook_calls_rounds. reflexivity.
Qed.

Lemma poll_error_after_rounds_witness :
  exists st',
    exec 8 (scripted [still_running; still_running; failed_running]
              (Returned PNone))
      (Exe.run sample_execution) fresh =
      (st', Some (Raised (AirflowException
         "Cloud Composer Environment error: quota exceeded"))) /\
    events (journal st') = [] /\
    sleeps (journal st') = repeat 30%Z 2 /\
    hook_calls st' = 3.
Proof.
  apply (poll_error_after_rounds 2
           (scripted [still_running; still_running; failed_running]
              (Returned PNone))
           sample_execution
           {| name := "operations/op-1"; done := false;
              error_message := "quota exceeded" |} 8).
  - intros i Hi. destruct i as [|[|i]]; [reflexivity | reflexivity | lia].
  - reflexivity.
  - reflexivity.
  - reflexivity.
  - lia.
Defined.

(** X3: the loop has no exit of its own.  Against a remote client whose
    every answer is pending, the run has not ended and has yielded nothing
    after any number of steps. *)
Theorem poll_forever remote self fuel :
  (forall i, is_pending (answer remote self i) = true) ->
  snd (exec fuel remote (Exe.run self) fresh) = None /\
  events (journal (fst (exec fuel remote (Exe.run self) fresh))) = [].
Proof.
  intros Hall.
  destruct (exec_reached remote self fuel fresh)
    as [k Hk|k Hk|k op ended Hk Hop Hd|k e Hk He]; simpl fst; simpl snd.
  - split; [reflexivity|]. apply events_rounds.
  - split; [reflexivity|]. rewrite events_polled. apply events_rounds.
  - exfalso. specialize (Hall (hook_calls fresh + k)).
    rewrite Hop in Hall. simpl in Hall. rewrite Hd in Hall. discriminate.
  - exfalso. apply raised_by_not_pending in He.
    rewrite Hall in He. discriminate.
Qed.

Lemma poll_forever_witness :
  snd (exec 100 (scripted [] (Returned PNone)) (Exe.run sample_execution) fresh)
    = None /\
  events (journal (fst (exec 100 (scripted [] (Returned PNone))
                          (Exe.run sample_execution) fresh))) = [].
Proof.
  apply (poll_forever (scripted [] (Returned PNone)) sample_execution 100).
  intros i. destruct i; reflexivity.
Defined.

(** X4: the run ends at the first answer that is not pending and never polls
    again.  If the first [N] answers are pending and answer [N+1] is not,
    the run has ended once [3N+3] steps are allowed, having made exactly
    [N+1] calls and slept [N] times; and no budget makes it call the hook
    more than [N+1] times. *)
Theorem stops_at_first_settled_answer N remote self fuel :
  (forall i, i < N -> is_pending (answer remote self i) = true) ->
  is_pending (answer remote self N) = false ->
  3 * N + 3 <= fuel ->
  (exists r, snd (exec fuel remote (Exe.run self) fresh) = Some r) /\
  hook_calls (fst (exec fuel remote (Exe.run self) fresh)) = S N /\
  length (sleeps (journal (fst (exec fuel remote (Exe.run self) fresh)))) = N /\
  forall fuel',
    hook_calls (fst (exec fuel' remote (Exe.run self) fresh)) <= S N.
Proof.
  intros Hpending Hsettled Hfuel.
  assert (Hp : pendings remote self fresh N) by now apply pendings_fresh.
  assert (Hend : exists st' r,
            exec fuel remote (Exe.run self) fresh = (st', Some r) /\
            hook_calls st' = S N /\
            sleeps (journal st') = repeat (Exe.pooling_period_seconds self) N).
  { destruct (answer remote self N) as [op|e] eqn:Hop.
    - destruct (done op) eqn:Hd.
      + exists (record (ObsYield (done_event op)) (polled self (rounds N self fresh))).
        exists (Returned tt). split; [|split].
        * replace fuel with (3 * N + (3 + (fuel - (3 * N + 3)))) by lia.
          apply exec_done_after; assumption.
        * simpl. rewrite hook_calls_rounds. reflexivity.
        * rewrite sleeps_yielded, sleeps_polled, sleeps_rounds. reflexivity.
      + simpl in Hsettled. rewrite Hd in Hsettled. simpl in Hsettled.
        apply negb_false_iff in Hsettled.
        exists (polled self (rounds N self fresh)).
        eexists. split; [|split].
        * replace fuel with (3 * N + (2 + (fuel - (3 * N + 2)))) by lia.
          apply exec_error_after; eassumption.
        * simpl. rewrite hook_calls_rounds. reflexivity.
        * rewrite sleeps_polled, sleeps_rounds. reflexivity.
    - exists (polled self (rounds N self fresh)), (Raised e). split; [|split].
      + replace fuel with (3 * N + (2 + (fuel - (3 * N + 2)))) by lia.
        apply exec_raised_after; assumption.
      + simpl. rewrite hook_calls_rounds. reflexivity.
      + rewrite sleeps_polled, sleeps_rounds. reflexivity. }
  destruct Hend as (st' & r & Hrun & Hcalls & Hsleeps).
  rewrite Hrun. simpl fst. simpl snd.
  split; [now exists r|]. split; [exact Hcalls|].
  split; [rewrite Hsleeps; apply repeat_length|].
  intros fuel'.
  destruct (exec_reached remote self fuel' fresh)
    as [k Hk|k Hk|k op ended Hk Hop Hd|k e Hk He]; simpl fst;
    pose proof (pendings_before remote self k N Hk Hsettled) as Hle;
    simpl; rewrite hook_calls_rounds; simpl; lia.
Qed.

Lemma stops_at_first_settled_answer_witness :
  (exists r,
     snd (exec 6 (scripted [still_running; failed_done] (Returned PNone))
            (Exe.run sample_execution) fresh) = Some r) /\
  hook_calls (fst (exec 6 (scripted [still_running; failed_done] (Returned PNone))
                     (Exe.run sample_execution) fresh)) = 2 /\
  length (sleeps (journal (fst (exec 6
            (scripted [still_running; failed_done] (Returned PNone))
            (Exe.run sample_execution) fresh)))) = 1 /\
  forall fuel',
    hook_calls (fst (exec fuel'
      (scripted [still_running; failed_done] (Returned PNone))
      (Exe.run sample_execution) fresh)) <= 2.
Proof.
  apply (stops_at_first_settled_answer 1
           (scripted [still_running; failed_done] (Returned PNone))
           sample_execution 6).
  - intros i Hi. destruct i as [|i]; [reflexivity | lia].
  - reflexivity.
  - lia.
Defined.

(** X5: the order of what the execution trigger does.  Whatever the hook
    answers and however long the run lasts, its journal is a number of full
    turns (a poll on the trigger's own hook and operation name, then a sleep
    of [pooling_period_seconds]) followed by nothing, by one more poll, or by
    one more poll and the event of a done handle, which is the last thing
    the run does. *)
Theorem journal_shape remote self fuel :
  exists k tail,
    journal (fst (exec fuel remote (Exe.run self) fresh)) =
      concat (repeat (turn self) k) ++ tail /\
    (tail = [] \/
     tail = [ ObsGetOperation (Exe.gcp_hook self) (Exe.operation_name self) ] \/
     exists op,
       done op = true /\
       tail = [ ObsGetOperation (Exe.gcp_hook self) (Exe.operation_name self);
                ObsYield (done_event op) ]).
Proof.
  destruct (exec_reached remote self fuel fresh)
    as [k Hk|k Hk|k op ended Hk Hop Hd|k e Hk He]; simpl fst; exists k.
  - exists []. split; [|now left].
    rewrite journal_rounds, app_nil_r. reflexivity.
  - eexists. split; [|right; left; reflexivity].
    simpl. rewrite journal_rounds. reflexivity.
  - eexists. split; [|right; right; exists op; split; [exact Hd | reflexivity]].
    simpl. rewrite journal_rounds, <- app_assoc. reflexivity.
  - eexists. split; [|right; left; reflexivity].
    simpl. rewrite journal_rounds. reflexivity.
Qed.

(** X6: how a run of the execution trigger ended tells what it yielded.  A
    run that ended normally yielded exactly one event, built from the last
    handle the hook returned, which was done; a run that ended with an
    exception yielded none, and the exception is the one the last call
    raised or the [AirflowException] made from the last handle's error
    message. *)
Theorem outcome_matches_events remote self fuel st' r :
  exec fuel remote (Exe.run self) fresh = (st', Some r) ->
  match r with
  | Returned _ =>
      exists op,
        answer remote self (hook_calls st' - 1) = Returned op /\
        done op = true /\
        events (journal st') = [done_event op]
  | Raised e =>
      raised_by (answer remote self (hook_calls st' - 1)) e /\
      events (journal st') = []
  end.
Proof.
  intros Hrun.
  pose proof (exec_reached remote self fuel fresh) as Hreached.
  rewrite Hrun in Hreached.
  inversion Hreached as [k Hk|k Hk|k op ended Hk Hop Hd Hst|k e Hk He]; subst.
  - destruct ended; [|discriminate].
    match goal with H : Some _ = Some r |- _ => injection H as <- end.
    exists op. split; [|split; [exact Hd|]].
    + simpl. rewrite hook_calls_rounds. simpl. rewrite Nat.sub_0_r. exact Hop.
    + rewrite events_yielded, events_polled, events_rounds. reflexivity.
  - split.
    + simpl. rewrite hook_calls_rounds. simpl. rewrite Nat.sub_0_r. exact He.
    + rewrite events_polled, events_rounds. reflexivity.
Qed.

Lemma outcome_matches_events_witness :
  exists op,
    answer (scripted [still_running; renamed_done] (Returned PNone))
      sample_execution
      (hook_calls (fst (exec 6 (scripted [still_running; renamed_done]
                                  (Returned PNone))
                          (Exe.run sample_execution) fresh)) - 1)
      = Returned op /\
    done op = true /\
    events (journal (fst (exec 6 (scripted [still_running; renamed_done]
                                    (Returned PNone))
                            (Exe.run sample_execution) fresh)))
      = [done_event op].
Proof.
  apply (outcome_matches_events
           (scripted [still_running; renamed_done] (Returned PNone))
           sample_execution 6
           (fst (exec 6 (scripted [still_running; renamed_done] (Returned PNone))
                   (Exe.run sample_execution) fresh))
           (Returned tt)).
  reflexivity.
Defined.

(* ===================================================================== *)
(** ** The command trigger, whatever the hook does *)
(* ===================================================================== *)

Lemma sleeps_waited self st :
  sleeps (journal (waited self st)) = sleeps (journal st).
Proof. simpl. rewrite sleeps_app. simpl. apply app_nil_r. Qed.

(** X7: the command trigger never loops.  Whatever its hook answers, three
    steps are enough for the run to end; it has then made exactly one call on
    the hook, and at no point has it slept or called the hook a second
    time. *)
Theorem command_never_loops remote self fuel :
  3 <= fuel ->
  (exists r, snd (exec fuel remote (Cli.run self) fresh) = Some r) /\
  hook_calls (fst (exec fuel remote (Cli.run self) fresh)) = 1 /\
  forall fuel',
    hook_calls (fst (exec fuel' remote (Cli.run self) fresh)) <= 1 /\
    sleeps (journal (fst (exec fuel' remote (Cli.run self) fresh))) = [].
Proof.
  intros Hfuel. split; [|split].
  - destruct fuel as [|[|[|fuel]]]; try lia.
    rewrite exec_command_unfold.
    destruct (verdict remote self (hook_calls fresh)) as [result|ex];
      [|destruct (exn_is_airflow ex)]; eexists; reflexivity.
  - destruct fuel as [|[|[|fuel]]]; try lia.
    rewrite exec_command_unfold.
    destruct (verdict remote self (hook_calls fresh)) as [result|ex];
      [|destruct (exn_is_airflow ex)]; reflexivity.
  - intros fuel'. destruct fuel' as [|fuel']; [split; [simpl; lia | reflexivity]|].
    rewrite exec_command_unfold.
    destruct (verdict remote self (hook_calls fresh)) as [result|ex];
      [|destruct (exn_is_airflow ex)];
      try (destruct fuel' as [|fuel']; cbn [fst]);
      rewrite ?fst_exec_ret, ?sleeps_yielded, ?sleeps_waited;
      split; simpl; try lia; reflexivity.
Qed.

Lemma command_never_loops_witness :
  (exists r,
     snd (exec 3 (scripted [] (Raised timed_out)) (Cli.run sample_command) fresh)
       = Some r) /\
  hook_calls (fst (exec 3 (scripted [] (Raised timed_out))
                     (Cli.run sample_command) fresh)) = 1 /\
  forall fuel',
    hook_calls (fst (exec fuel' (scripted [] (Raised timed_out))
                       (Cli.run sample_command) fresh)) <= 1 /\
    sleeps (journal (fst (exec fuel' (scripted [] (Raised timed_out))
                            (Cli.run sample_command) fresh))) = [].
Proof.
  apply (command_never_loops (scripted [] (Raised timed_out)) sample_command 3).
  lia.
Defined.

(** X8: the error event carries [str(ex)] of whatever [AirflowException] the
    hook raised, a subclass or an empty message included: the run yields the
    one event with status "error" and that text as message, and ends
    normally. *)
Theorem command_error_event remote self ex fuel :
  verdict remote self 0 = Raised ex ->
  exn_is_airflow ex = true ->
  3 <= fuel ->
  exists st',
    exec fuel remote (Cli.run self) fresh = (st', Some (Returned tt)) /\
    events (journal st') =
      [ {| payload := [ ("status", PStr "error");
                        ("message", PStr (exn_str ex)) ] |} ] /\
    terminal_events (journal st') = 1.
Proof.
  intros Hex Hair Hfuel.
  destruct fuel as [|[|[|fuel]]]; try lia.
  exists (record (ObsYield (error_event ex)) (waited self fresh)).
  split; [|split].
  - rewrite exec_command_unfold. simpl hook_calls. rewrite Hex, Hair.
    apply exec_ret.
  - rewrite events_yielded, events_waited. reflexivity.
  - unfold terminal_events.
    rewrite events_yielded, events_waited. reflexivity.
Qed.

Lemma command_error_event_witness :
  exists st',
    exec 3 (scripted [] (Raised not_found)) (Cli.run sample_command) fresh =
      (st', Some (Returned tt)) /\
    events (journal st') =
      [ {| payload := [ ("status", PStr "error");
                        ("message", PStr "operation not found") ] |} ] /\
    terminal_events (journal st') = 1.
Proof.
  apply (command_error_event (scripted [] (Raised not_found)) sample_command
           not_found 3); [reflexivity | reflexivity | lia].
Defined.

(* ===================================================================== *)
(** ** Constructors *)
(* ===================================================================== *)

Lemma str_of_py_inv v s : str_of_py v = Some s -> v = PStr s.
Proof. destruct v; simpl; congruence. Qed.

Lemma int_of_py_inv v z : int_of_py v = Some z -> v = PInt z.
Proof. destruct v; simpl; congruence. Qed.

Lemma dict_of_py_inv v d : dict_of_py v = Some d -> v = PDict d.
Proof. destruct v; simpl; congruence. Qed.

Lemma strs_of_py_inv : forall l r, strs_of_py l = Some r -> l = map PStr r.
Proof.
  induction l as [|v l IH]; intros r H; simpl in H.
  - injection H as <-. reflexivity.
  - destruct v; try discriminate.
    destruct (strs_of_py l) as [r'|]; [|discriminate].
    injection H as <-. simpl. f_equal. now apply IH.
Qed.

Lemma chain_of_py_inv v c : chain_of_py v = Some c -> v = py_of_chain c.
Proof.
  destruct v; simpl; try discriminate.
  - intros [= <-]. reflexivity.
  - intros [= <-]. reflexivity.
  - destruct (strs_of_py l) as [r|] eqn:Hl; [|discriminate].
    intros [= <-]. simpl. f_equal. now apply strs_of_py_inv.
Qed.

Lemma required_inv {A : Type} (conv : pyval -> option A) (inj : A -> pyval)
    key kwargs a :
  (forall v x, conv v = Some x -> v = inj x) ->
  required conv key kwargs = Some a ->
  lookup key kwargs = Some (inj a).
Proof.
  intros Hinv. unfold required.
  destruct (lookup key kwargs) as [v|]; [|discriminate].
  intros H. f_equal. now apply Hinv.
Qed.

Lemma defaulted_inv {A : Type} (conv : pyval -> option A) (inj : A -> pyval)
    key default kwargs a :
  (forall v x, conv v = Some x -> v = inj x) ->
  defaulted conv key default kwargs = Some a ->
  lookup key kwargs = Some (inj a) \/
  (lookup key kwargs = None /\ a = default).
Proof.
  intros Hinv. unfold defaulted.
  destruct (lookup key kwargs) as [v|].
  - intros H. left. f_equal. now apply Hinv.
  - intros [= <-]. right. split; reflexivity.
Qed.

Lemma lookup_In key : forall d v, lookup key d = Some v -> In (key, v) d.
Proof.
  induction d as [|[k x] d IH]; intros v H; simpl in H; [discriminate|].
  destruct (String.eqb_spec key k) as [->|Hne].
  - injection H as <-. now left.
  - right. now apply IH.
Qed.

Lemma known_keywords_lookup parameters kwargs key v :
  known_keywords parameters kwargs = true ->
  lookup key kwargs = Some v ->
  In key parameters.
Proof.
  intros Hknown Hlookup. unfold known_keywords in Hknown.
  rewrite forallb_forall in Hknown.
  specialize (Hknown (key, v) (lookup_In key kwargs v Hlookup)).
  simpl in Hknown. apply existsb_exists in Hknown.
  destruct Hknown as (p & Hin & Heq).
  apply String.eqb_eq in Heq. now subst p.
Qed.

(** X9: a [CloudComposerExecutionTrigger] built from keyword arguments
    serializes back to them: under every key, the dictionary of [serialize]
    holds the value that was passed, or the signature's default when the key
    was not passed ([gcp_conn_id] "google_cloud_default",
    [impersonation_chain] None, [pooling_period_seconds] 30). *)
Theorem serialize_init_execution kwargs w key :
  Exe.init kwargs = Some w ->
  lookup key (snd (Exe.serialize w)) =
  match lookup key kwargs with
  | Some v => Some v
  | None => lookup key execution_defaults
  end.
Proof.
  unfold Exe.init.
  destruct (known_keywords Exe.parameters kwargs) eqn:Hknown; [|discriminate].
  destruct (required str_of_py "project_id" kwargs) as [p|] eqn:Hp;
    [|discriminate].
  destruct (required str_of_py "region" kwargs) as [r|] eqn:Hr;
    [|discriminate].
  destruct (required str_of_py "operation_name" kwargs) as [o|] eqn:Ho;
    [|discriminate].
  destruct (defaulted str_of_py "gcp_conn_id" "google_cloud_default" kwargs)
    as [c|] eqn:Hc; [|discriminate].
  destruct (defaulted chain_of_py "impersonation_chain" None kwargs)
    as [i|] eqn:Hi; [|discriminate].
  destruct (defaulted int_of_py "pooling_period_seconds" 30%Z kwargs)
    as [s|] eqn:Hs; [|discriminate].
  intros [= <-].
  apply (required_inv _ PStr) in Hp, Hr, Ho; try exact str_of_py_inv.
  apply (defaulted_inv _ PStr) in Hc; [|exact str_of_py_inv].
  apply (defaulted_inv _ py_of_chain) in Hi; [|exact chain_of_py_inv].
  apply (defaulted_inv _ PInt) in Hs; [|exact int_of_py_inv].
  unfold Exe.serialize, execution_defaults. simpl.
  destruct (String.eqb_spec key "project_id") as [->|N1];
    [rewrite Hp; reflexivity|].
  destruct (String.eqb_spec key "region") as [->|N2];
    [rewrite Hr; reflexivity|].
  destruct (String.eqb_spec key "operation_name") as [->|N3];
    [rewrite Ho; reflexivity|].
  destruct (String.eqb_spec key "gcp_conn_id") as [->|N4];
    [destruct Hc as [-> | [-> ->]]; reflexivity|].
  destruct (String.eqb_spec key "impersonation_chain") as [->|N5];
    [destruct Hi as [-> | [-> ->]]; reflexivity|].
  destruct (String.eqb_spec key "pooling_period_seconds") as [->|N6];
    [destruct Hs as [-> | [-> ->]]; reflexivity|].
  destruct (lookup key kwargs) as [v|] eqn:Hkey; [|reflexivity].
  exfalso.
  pose proof (known_keywords_lookup _ _ _ _ Hknown Hkey) as Hin.
  simpl in Hin. intuition congruence.
Qed.

Lemma serialize_init_execution_witness :
  lookup "pooling_period_seconds"
    (snd (Exe.serialize
       {| Exe.project_id := "p"; Exe.region := "r"; Exe.operation_name := "o";
          Exe.gcp_conn_id := "conn"; Exe.impersonation_chain := None;
          Exe.pooling_period_seconds := 30 |})) =
  match lookup "pooling_period_seconds"
          [ ("region", PStr "r"); ("gcp_conn_id", PStr "conn");
            ("project_id", PStr "p"); ("operation_name", PStr "o") ] with
  | Some v => Some v
  | None => lookup "pooling_period_seconds" execution_defaults
  end.
Proof.
  apply (serialize_init_execution
           [ ("region", PStr "r"); ("gcp_conn_id", PStr "conn");
             ("project_id", PStr "p"); ("operation_name", PStr "o") ]).
  reflexivity.
Defined.

(** X10: the same for a [CloudComposerAirflowCLICommandTrigger]: under every
    key, [serialize] holds the value that was passed, or the signature's
    default when the key was not passed ([gcp_conn_id]
    "google_cloud_default", [impersonation_chain] None, [poll_interval]
    10). *)
Theorem serialize_init_command kwargs w key :
  Cli.init kwargs = Some w ->
  lookup key (snd (Cli.serialize w)) =
  match lookup key kwargs with
  | Some v => Some v
  | None => lookup key command_defaults
  end.
Proof.
  unfold Cli.init.
  destruct (known_keywords Cli.parameters kwargs) eqn:Hknown; [|discriminate].
  destruct (required str_of_py "project_id" kwargs) as [p|] eqn:Hp;
    [|discriminate].
  destruct (required str_of_py "region" kwargs) as [r|] eqn:Hr;
    [|discriminate].
  destruct (required str_of_py "environment_id" kwargs) as [e|] eqn:He;
    [|discriminate].
  destruct (required dict_of_py "execution_cmd_info" kwargs) as [x|] eqn:Hx;
    [|discriminate].
  destruct (defaulted str_of_py "gcp_conn_id" "google_cloud_default" kwargs)
    as [c|] eqn:Hc; [|discriminate].
  destruct (defaulted chain_of_py "impersonation_chain" None kwargs)
    as [i|] eqn:Hi; [|discriminate].
  destruct (defaulted int_of_py "poll_interval" 10%Z kwargs)
    as [s|] eqn:Hs; [|discriminate].
  intros [= <-].
  apply (required_inv _ PStr) in Hp, Hr, He; try exact str_of_py_inv.
  apply (required_inv _ PDict) in Hx; [|exact dict_of_py_inv].
  apply (defaulted_inv _ PStr) in Hc; [|exact str_of_py_inv].
  apply (defaulted_inv _ py_of_chain) in Hi; [|exact chain_of_py_inv].
  apply (defaulted_inv _ PInt) in Hs; [|exact int_of_py_inv].
  unfold Cli.serialize, command_defaults. simpl.
  destruct (String.eqb_spec key "project_id") as [->|N1];
    [rewrite Hp; reflexivity|].
  destruct (String.eqb_spec key "region") as [->|N2];
    [rewrite Hr; reflexivity|].
  destruct (String.eqb_spec key "environment_id") as [->|N3];
    [rewrite He; reflexivity|].
  destruct (String.eqb_spec key "execution_cmd_info") as [->|N4];
    [rewrite Hx; reflexivity|].
  destruct (String.eqb_spec key "gcp_conn_id") as [->|N5];
    [destruct Hc as [-> | [-> ->]]; reflexivity|].
  destruct (String.eqb_spec key "impersonation_chain") as [->|N6];
    [destruct Hi as [-> | [-> ->]]; reflexivity|].
  destruct (String.eqb_spec key "poll_interval") as [->|N7];
    [destruct Hs as [-> | [-> ->]]; reflexivity|].
  destruct (lookup key kwargs) as [v|] eqn:Hkey; [|reflexivity].
  exfalso.
  pose proof (known_keywords_lookup _ _ _ _ Hknown Hkey) as Hin.
  simpl in Hin. intuition congruence.
Qed.

Lemma serialize_init_command_witness :
  lookup "poll_interval"
    (snd (Cli.serialize
       {| Cli.project_id := "p"; Cli.region := "r"; Cli.environment_id := "e";
          Cli.execution_cmd_info := [ ("execution_id", PStr "x") ];
          Cli.gcp_conn_id := "google_cloud_default";
          Cli.impersonation_chain := Some (inr ["sa-1"]);
          Cli.poll_interval := 10 |})) =
  match lookup "poll_interval"
          [ ("impersonation_chain", PList [PStr "sa-1"]);
            ("execution_cmd_info", PDict [ ("execution_id", PStr "x") ]);
            ("environment_id", PStr "e"); ("region", PStr "r");
            ("project_id", PStr "p") ] with
  | Some v => Some v
  | None => lookup "poll_interval" command_defaults
  end.
Proof.
  apply (serialize_init_command
           [ ("impersonation_chain", PList [PStr "sa-1"]);
             ("execution_cmd_info", PDict [ ("execution_id", PStr "x") ]);
             ("environment_id", PStr "e"); ("region", PStr "r");
             ("project_id", PStr "p") ]).
  reflexivity.
Defined.

Lemma unknown_keyword parameters kwargs key v :
  lookup key kwargs = Some v ->
  ~ In key parameters ->
  known_keywords parameters kwargs = false.
Proof.
  intros Hlookup Hout.
  destruct (known_keywords parameters kwargs) eqn:Hknown; [|reflexivity].
  exfalso. apply Hout. eapply known_keywords_lookup; eassumption.
Qed.

(** X11: the constructor of [CloudComposerExecutionTrigger] fails when one
    of the parameters without default ([project_id], [region],
    [operation_name]) is not passed, and when a keyword is passed that the
    signature does not have. *)
Theorem init_rejects_execution kwargs :
  lookup "project_id" kwargs = None \/
  lookup "region" kwargs = None \/
  lookup "operation_name" kwargs = None \/
  (exists key v, lookup key kwargs = Some v /\ ~ In key Exe.parameters) ->
  Exe.init kwargs = None.
Proof.
  intros [H | [H | [H | (key & v & Hlookup & Hout)]]]; unfold Exe.init.
  - unfold required at 1. rewrite H.
    destruct (known_keywords Exe.parameters kwargs); reflexivity.
  - unfold required at 2. rewrite H.
    destruct (known_keywords Exe.parameters kwargs); [|reflexivity].
    destruct (required str_of_py "project_id" kwargs); reflexivity.
  - unfold required at 3. rewrite H.
    destruct (known_keywords Exe.parameters kwargs); [|reflexivity].
    destruct (required str_of_py "project_id" kwargs); [|reflexivity].
    destruct (required str_of_py "region" kwargs); reflexivity.
  - rewrite (unknown_keyword _ _ _ _ Hlookup Hout). reflexivity.
Qed.

Lemma init_rejects_execution_witness :
  Exe.init [ ("project_id", PStr "p"); ("region", PStr "r");
             ("operation_name", PStr "o"); ("environment_id", PStr "e") ]
  = None.
Proof.
  apply init_rejects_execution.
  right. right. right. exists "environment_id", (PStr "e").
  split; [reflexivity|].
  simpl. intros [H|[H|[H|[H|[H|[H|[]]]]]]]; discriminate H.
Defined.

(** X12: the constructor of [CloudComposerAirflowCLICommandTrigger] fails
    when one of the parameters without default ([project_id], [region],
    [environment_id], [execution_cmd_info]) is not passed, and when a
    keyword is passed that the signature does not have. *)
Theorem init_rejects_command kwargs :
  lookup "project_id" kwargs = None \/
  lookup "region" kwargs = None \/
  lookup "environment_id" kwargs = None \/
  lookup "execution_cmd_info" kwargs = None \/
  (exists key v, lookup key kwargs = Some v /\ ~ In key Cli.parameters) ->
  Cli.init kwargs = None.
Proof.
  intros [H | [H | [H | [H | (key & v & Hlookup & Hout)]]]]; unfold Cli.init.
  - unfold required at 1. rewrite H.
    destruct (known_keywords Cli.parameters kwargs); reflexivity.
  - unfold required at 2. rewrite H.
    destruct (known_keywords Cli.parameters kwargs); [|reflexivity].
    destruct (required str_of_py "project_id" kwargs); reflexivity.
  - unfold required at 3. rewrite H.
    destruct (known_keywords Cli.parameters kwargs); [|reflexivity].
    destruct (required str_of_py "project_id" kwargs); [|reflexivity].
    destruct (required str_of_py "region" kwargs); reflexivity.
  - unfold required at 4. rewrite H.
    destruct (known_keywords Cli.parameters kwargs); [|reflexivity].
    destruct (required str_of_py "project_id" kwargs); [|reflexivity].
    destruct (required str_of_py "region" kwargs); [|reflexivity].
    destruct (required str_of_py "environment_id" kwargs); reflexivity.
  - rewrite (unknown_keyword _ _ _ _ Hlookup Hout). reflexivity.
Qed.

Lemma init_rejects_command_witness :
  Cli.init [ ("project_id", PStr "p"); ("region", PStr "r");
             ("environment_id", PStr "e") ]
  = None.
Proof.
  apply init_rejects_command.
  right. right. right. left. reflexivity.
Defined.

(** X13: the two classes cannot stand in for one another.  Their class
    paths differ, and the dictionary one class serializes is refused by the
    constructor of the other: only the class path tells which constructor
    takes a serialized trigger. *)
Theorem descriptors_not_interchangeable :
  Exe.classpath <> Cli.classpath /\
  (forall w : Exe.t, Cli.init (snd (Exe.serialize w)) = None) /\
  (forall w : Cli.t, Exe.init (snd (Cli.serialize w)) = None).
Proof.
  split; [discriminate|]. split; intros w; reflexivity.
Qed.

(** X14: [run] of the execution trigger reads only [operation_name], the
    hook (built from [gcp_conn_id] and [impersonation_chain]) and
    [pooling_period_seconds].  Two triggers that agree on these and differ in
    [project_id] or [region] run alike against every remote client. *)
Theorem run_ignores_project_and_region (w1 w2 : Exe.t) remote fuel st :
  Exe.operation_name w1 = Exe.operation_name w2 ->
  Exe.gcp_conn_id w1 = Exe.gcp_conn_id w2 ->
  Exe.impersonation_chain w1 = Exe.impersonation_chain w2 ->
  Exe.pooling_period_seconds w1 = Exe.pooling_period_seconds w2 ->
  exec fuel remote (Exe.run w1) st = exec fuel remote (Exe.run w2) st.
Proof.
  destruct w1 as [p1 r1 o1 c1 i1 s1], w2 as [p2 r2 o2 c2 i2 s2]. simpl.
  intros -> -> -> ->. reflexivity.
Qed.

Lemma run_ignores_project_and_region_witness :
  exec 9 (scripted [still_running; still_running; finished] (Returned PNone))
    (Exe.run sample_execution) fresh =
  exec 9 (scripted [still_running; still_running; finished] (Returned PNone))
    (Exe.run
       {| Exe.project_id := "another-project"; Exe.region := "europe-west1";
          Exe.operation_name := "operations/op-1";
          Exe.gcp_conn_id := "google_cloud_default";
          Exe.impersonation_chain := Some (inr ["sa-1"; "sa-2"]);
          Exe.pooling_period_seconds := 30 |}) fresh.
Proof.
  apply (run_ignores_project_and_region sample_execution
           {| Exe.project_id := "another-project"; Exe.region := "europe-west1";
              Exe.operation_name := "operations/op-1";
              Exe.gcp_conn_id := "google_cloud_default";
              Exe.impersonation_chain := Some (inr ["sa-1"; "sa-2"]);
              Exe.pooling_period_seconds := 30 |});
    reflexivity.
Defined.
